(** * ValueStore: the three-tier prop store of a live component

    A shallow embedding of [src/LiveComponent/assets/src/Component/ValueStore.ts].

    - JavaScript values are a tagged union; objects are references into a
      heap, so that [===] on objects is identity and the object handed to the
      constructor stays shared with its caller.
    - An object is an ordinary extensible object: its enumerable and its
      non-enumerable own data properties, its prototype, and whether it can
      be called.  A property read walks the prototype chain, so the members
      of [Object.prototype] ([constructor], [toString], ...) are found on
      every plain object, and the [__proto__] accessor of [Object.prototype]
      is honoured by reads and by assignments.  Other accessors, frozen
      objects, proxies and arrays are outside the model.
    - [dirtyProps] and [pendingProps] are created by the store and only ever
      leave it as spread copies, so no alias to them exists: their own
      properties are kept by value in the store record.  The prototype of
      [dirtyProps] can be replaced by an assignment to [__proto__] and is a
      field of its own; [pendingProps] is never assigned to and keeps
      [Object.prototype].  [props] is whatever the caller passed.
    - Every method is a computation over the machine state that either
      completes normally or throws. *)

From Stdlib Require Import Ascii.
From stdpp Require Import gmap strings list fin_maps pretty.

#[local] Set Warnings "-clear-no-such-hyp".

Open Scope string_scope.
Open Scope Z_scope.

(** ** Values and the heap *)

Inductive Value : Type :=
  | VUndefined
  | VNull
  | VBool (b : bool)
  | VNum (n : Z)          (* a number other than NaN *)
  | VNaN
  | VStr (s : string)
  | VObj (a : positive).  (* reference to a heap object, function or not *)

Abbreviation Obj := (gmap string Value).

Record Object : Type := mkObject {
  own : gmap string Value;     (* enumerable own data properties *)
  hidden : gmap string Value;  (* non-enumerable own data properties *)
  proto : Value;               (* the prototype: an object or [null] *)
  callable : bool              (* a function *)
}.

Abbreviation Heap := (gmap positive Object).

(** [x === y] *)
Definition strict_eq (x y : Value) : bool :=
  match x, y with
  | VUndefined, VUndefined => true
  | VNull, VNull => true
  | VBool a, VBool b => Bool.eqb a b
  | VNum a, VNum b => Z.eqb a b
  | VStr a, VStr b => String.eqb a b
  | VObj a, VObj b => Pos.eqb a b
  | _, _ => false
  end.

(** [x !== undefined] *)
Definition defined (x : Value) : bool := negb (strict_eq x VUndefined).

(** Where [Object.prototype] lives. *)
Definition objectPrototype : positive := 64.

(** An object literal: the given enumerable properties over
    [Object.prototype]. *)
Definition plain (o : Obj) : Object := mkObject o ∅ (VObj objectPrototype) false.

(** The object stored at an address. *)
Definition object_at (h : Heap) (a : positive) : Object := default (plain ∅) (h !! a).

(** Its enumerable own properties. *)
Definition deref (h : Heap) (a : positive) : Obj := own (object_at h a).

(** Its prototype; that of [Object.prototype] is [null] and cannot change. *)
Definition protoOf (h : Heap) (a : positive) : Value :=
  if bool_decide (a = objectPrototype) then VNull else proto (object_at h a).

(** [typeof x] *)
Definition typeof (h : Heap) (x : Value) : string :=
  match x with
  | VUndefined => "undefined"
  | VNull => "object"
  | VBool _ => "boolean"
  | VNum _ | VNaN => "number"
  | VStr _ => "string"
  | VObj a => if callable (object_at h a) then "function" else "object"
  end.

(** A lookup in a map of own properties: a missing key reads as
    [undefined]. *)
Definition member (o : Obj) (k : string) : Value := default VUndefined (o !! k).

(** The own data property of an object under a key. *)
Definition ownProperty (o : Object) (k : string) : option Value :=
  match own o !! k with
  | Some v => Some v
  | None => hidden o !! k
  end.

(** Prototype chains are walked with as many steps as a chain without a
    cycle can have. *)
Definition chainFuel (h : Heap) : nat := S (S (size h)).

(** The read of [k] along the prototype chain that starts at [from].  The
    first own data property decides; at [Object.prototype] the getter of
    [__proto__] answers with the prototype of the object the read began on;
    a chain that ends in [null] gives [undefined]. *)
Fixpoint inherited (fuel : nat) (h : Heap) (from : Value) (k : string)
    (receiverProto : Value) : Value :=
  match fuel, from with
  | S fuel', VObj a =>
      match ownProperty (object_at h a) k with
      | Some v => v
      | None =>
          if bool_decide (a = objectPrototype)
          then (if String.eqb k "__proto__" then receiverProto else VUndefined)
          else inherited fuel' h (proto (object_at h a)) k receiverProto
      end
  | _, _ => VUndefined
  end.

(** Whether an assignment to [__proto__] along the chain that starts at
    [from] ends on the setter of [Object.prototype]: no object before it
    has a data property of that name. *)
Fixpoint reachesProtoAccessor (fuel : nat) (h : Heap) (from : Value) : bool :=
  match fuel, from with
  | S fuel', VObj a =>
      match ownProperty (object_at h a) "__proto__" with
      | Some _ => false
      | None =>
          if bool_decide (a = objectPrototype) then true
          else reachesProtoAccessor fuel' h (proto (object_at h a))
      end
  | _, _ => false
  end.

(** Whether the chain that starts at [from] passes through [target]. *)
Fixpoint inChain (fuel : nat) (h : Heap) (from : Value) (target : positive) : bool :=
  match fuel, from with
  | S fuel', VObj a =>
      if bool_decide (a = target) then true
      else if bool_decide (a = objectPrototype) then false
      else inChain fuel' h (proto (object_at h a)) target
  | _, _ => false
  end.

(** [o[k]] on an object. *)
Definition propertyOf (h : Heap) (a : positive) (k : string) : Value :=
  inherited (chainFuel h) h (VObj a) k (protoOf h a).

(** The object after a data write under [k]: an own property that exists
    keeps its kind, a new one is enumerable. *)
Definition putOwn (o : Object) (k : string) (x : Value) : Object :=
  match own o !! k, hidden o !! k with
  | None, Some _ => mkObject (own o) (<[k := x]> (hidden o)) (proto o) (callable o)
  | _, _ => mkObject (<[k := x]> (own o)) (hidden o) (proto o) (callable o)
  end.

Definition withProto (o : Object) (x : Value) : Object :=
  mkObject (own o) (hidden o) x (callable o).

(** ** The store and its computations *)

Record Machine : Type := mkMachine {
  heap : Heap;
  props : Value;
  dirtyProps : Obj;
  pendingProps : Obj;
  dirtyProto : Value
}.

Inductive Error : Type := TypeError.

Inductive Completion (A : Type) : Type :=
  | Normal (a : A)
  | Throw (e : Error).
Arguments Normal {A} a.
Arguments Throw {A} e.

Definition Op (A : Type) : Type := Machine -> Completion A * Machine.

Definition ret {A} (a : A) : Op A := fun m => (Normal a, m).
Definition throw {A} (e : Error) : Op A := fun m => (Throw e, m).
Definition bind {A B} (c : Op A) (k : A -> Op B) : Op B :=
  fun m =>
    match c m with
    | (Normal a, m') => k a m'
    | (Throw e, m') => (Throw e, m')
    end.
Definition read {A} (f : Machine -> A) : Op A := fun m => (Normal (f m), m).
Definition modify (f : Machine -> Machine) : Op unit := fun m => (Normal tt, f m).

Declare Scope op_scope.
Delimit Scope op_scope with op.
Notation "x <- c ;; k" := (bind c (fun x => k))
  (at level 100, c at next level, right associativity) : op_scope.
Notation "c ;;; k" := (bind c (fun _ => k))
  (at level 100, right associativity) : op_scope.
Open Scope op_scope.

Definition set_heap (h : Heap) (m : Machine) : Machine :=
  mkMachine h (props m) (dirtyProps m) (pendingProps m) (dirtyProto m).
Definition set_props (p : Value) (m : Machine) : Machine :=
  mkMachine (heap m) p (dirtyProps m) (pendingProps m) (dirtyProto m).
Definition set_dirtyProps (d : Obj) (m : Machine) : Machine :=
  mkMachine (heap m) (props m) d (pendingProps m) (dirtyProto m).
Definition set_pendingProps (p : Obj) (m : Machine) : Machine :=
  mkMachine (heap m) (props m) (dirtyProps m) p (dirtyProto m).
Definition set_dirtyProto (x : Value) (m : Machine) : Machine :=
  mkMachine (heap m) (props m) (dirtyProps m) (pendingProps m) x.

(** [this.dirtyProps[k]]: an own property, or what the prototype of dirty
    hands down. *)
Definition inheritedDirty (m : Machine) (k : string) : Value :=
  inherited (chainFuel (heap m)) (heap m) (dirtyProto m) k (dirtyProto m).

Definition dirtyMember (m : Machine) (k : string) : Value :=
  match dirtyProps m !! k with
  | Some v => v
  | None => inheritedDirty m k
  end.

(** [this.pendingProps[k]]: an own property, or what [Object.prototype]
    hands down. *)
Definition inheritedPending (m : Machine) (k : string) : Value :=
  inherited (chainFuel (heap m)) (heap m) (VObj objectPrototype) k (VObj objectPrototype).

Definition pendingMember (m : Machine) (k : string) : Value :=
  match pendingProps m !! k with
  | Some v => v
  | None => inheritedPending m k
  end.

(** Whether [this.dirtyProps[k] = ...] runs the setter of [__proto__]
    instead of writing a property. *)
Definition protoSetterRuns (m : Machine) (k : string) : bool :=
  String.eqb k "__proto__" &&
  match dirtyProps m !! k with
  | Some _ => false
  | None => reachesProtoAccessor (chainFuel (heap m)) (heap m) (dirtyProto m)
  end.

(** [this.dirtyProps[k] = x].  The setter of [__proto__] replaces the
    prototype by an object or [null] and ignores any other value; no chain
    passes through dirty, so it cannot refuse. *)
Definition assignDirty (k : string) (x : Value) : Op unit :=
  runs <- read (fun m => protoSetterRuns m k) ;;
  if runs then
    match x with
    | VObj _ | VNull => modify (set_dirtyProto x)
    | _ => ret tt
    end
  else modify (fun m => set_dirtyProps (<[k := x]> (dirtyProps m)) m).

(** [v[k]] as an expression.  [null] and [undefined] have no properties and
    the read throws; the prototypes of the primitive wrappers are not
    modelled, and the store reads off values whose [typeof] is ["object"]
    only. *)
Definition getMember (v : Value) (k : string) : Op Value :=
  match v with
  | VObj a => read (fun m => propertyOf (heap m) a k)
  | VUndefined | VNull => throw TypeError
  | _ => ret VUndefined
  end.

(** [v[k] = x] in strict code (class bodies are strict).  On an object the
    setter of [__proto__], when the chain reaches it, replaces the prototype
    by an object or [null]: it accepts the prototype the object has, refuses
    any other on [Object.prototype] and refuses a cycle; it ignores any
    other value.  Every other assignment writes an own property.  On
    [null] and [undefined] the assignment throws; on a primitive it throws
    too, except that the setter of [__proto__] returns without effect. *)
Definition setMember (v : Value) (k : string) (x : Value) : Op unit :=
  match v with
  | VObj a =>
      h <- read heap ;;
      if String.eqb k "__proto__" && reachesProtoAccessor (chainFuel h) h (VObj a) then
        match x with
        | VObj _ | VNull =>
            if strict_eq x (protoOf h a) then ret tt
            else if bool_decide (a = objectPrototype) then throw TypeError
            else if inChain (chainFuel h) h x a then throw TypeError
            else modify (fun m =>
                   set_heap (<[a := withProto (object_at (heap m) a) x]> (heap m)) m)
        | _ => ret tt
        end
      else modify (fun m =>
             set_heap (<[a := putOwn (object_at (heap m) a) k x]> (heap m)) m)
  | VUndefined | VNull => throw TypeError
  | _ => if String.eqb k "__proto__" then ret tt else throw TypeError
  end.

(** The two imported helpers.  Their source is not part of this unit; the
    store is verified against any pair of total, side-effect free
    functions. *)
Class Utils : Type := {
  normalizeModelName : string -> string;
  getDeepData : Heap -> Value -> string -> Value
}.

Definition identifierKey : string := "@id".

(** [key.indexOf('.') === -1] *)
Definition isPropNameTopLevel (key : string) : bool :=
  match String.index 0 "." key with
  | None => true
  | Some _ => false
  end.

Definition findIdentifier (value : Value) : Op Value :=
  ty <- read (fun m => typeof (heap m) value) ;;
  if negb (String.eqb ty "object") then ret value else
  id <- getMember value identifierKey ;;
  if strict_eq id VUndefined then ret value else
  getMember value identifierKey.

Section Store.
Context {U : Utils}.

Definition constructor (h : Heap) (p : Value) : Machine :=
  mkMachine h p ∅ ∅ (VObj objectPrototype).

Definition get (name : string) : Op Value :=
  let normalizedName := normalizeModelName name in
  dirty <- read (fun m => dirtyMember m normalizedName) ;;
  if defined dirty then read (fun m => dirtyMember m normalizedName) else
  pending <- read (fun m => pendingMember m normalizedName) ;;
  if defined pending then read (fun m => pendingMember m normalizedName) else
  value <- read (fun m => getDeepData (heap m) (props m) normalizedName) ;;
  if strict_eq VNull value then ret value else
  if isPropNameTopLevel normalizedName then
    ty <- read (fun m => typeof (heap m) value) ;;
    if String.eqb ty "object" then
      id <- getMember value identifierKey ;;
      if defined id then getMember value identifierKey else ret value
    else ret value
  else ret value.

Definition has (name : string) : Op bool :=
  v <- get name ;;
  ret (defined v).

Definition set (name : string) (value : Value) : Op bool :=
  let normalizedName := normalizeModelName name in
  currentValue <- get normalizedName ;;
  if strict_eq currentValue value then ret false else
  assignDirty normalizedName value ;;;
  ret true.

(** [{ ...v }]: the enumerable own properties of an object.  [null],
    [undefined], booleans and numbers spread to nothing, a string to its
    characters under their indices. *)
Definition spread (h : Heap) (v : Value) : Obj :=
  match v with
  | VObj a => deref h a
  | VStr s =>
      list_to_map
        (imap (fun i c => (pretty i, VStr (String c ""))) (String.list_ascii_of_string s))
  | _ => ∅
  end.

(** An object literal: a new plain object at an address the heap does not
    use. *)
Definition alloc (o : Obj) : Op Value :=
  fun m =>
    let a := fresh ({[objectPrototype]} ∪ dom (heap m)) in
    (Normal (VObj a), set_heap (<[a := plain o]> (heap m)) m).

Definition getOriginalProps : Op Value :=
  o <- read (fun m => spread (heap m) (props m)) ;;
  alloc o.

Definition getDirtyProps : Op Value :=
  o <- read dirtyProps ;;
  alloc o.

(** The new dirty object [{}] has [Object.prototype] again. *)
Definition flushDirtyPropsToPending : Op unit :=
  modify (fun m => set_pendingProps (dirtyProps m) m) ;;;
  modify (fun m => set_dirtyProto (VObj objectPrototype) (set_dirtyProps ∅ m)).

Definition reinitializeAllProps (newProps : Value) : Op unit :=
  modify (set_props newProps) ;;;
  modify (set_pendingProps ∅).

(** [{ ...pending, ...dirty }]: the later spread wins on a shared key, and
    the new object has [Object.prototype]. *)
Definition pushPendingPropsBackToDirty : Op unit :=
  modify (fun m =>
    set_dirtyProto (VObj objectPrototype)
      (set_dirtyProps (dirtyProps m ∪ pendingProps m) m)) ;;;
  modify (set_pendingProps ∅).

(** The loop of [reinitializeProvidedProps] over the array that
    [Object.entries(props)] built before the first iteration. *)
Fixpoint reinitializeEntries (entries : list (string * Value)) (changed : bool) : Op bool :=
  match entries with
  | [] => ret changed
  | (key, value) :: rest =>
      currentIdentifier <- get key ;;
      newIdentifier <- findIdentifier value ;;
      if negb (strict_eq currentIdentifier newIdentifier) then
        p <- read props ;;
        setMember p key value ;;;
        reinitializeEntries rest true
      else reinitializeEntries rest changed
  end.

Definition reinitializeProvidedProps (entries : list (string * Value)) : Op bool :=
  reinitializeEntries entries false.

(** *** Sequences of calls

    A client drives the store through its public methods; between two calls
    it may allocate and mutate heap objects of its own, the one it passed as
    [props] included. *)
Inductive Call : Type :=
  | CGet (name : string)
  | CHas (name : string)
  | CSet (name : string) (value : Value)
  | CGetOriginalProps
  | CGetDirtyProps
  | CFlushDirtyPropsToPending
  | CReinitializeAllProps (newProps : Value)
  | CPushPendingPropsBackToDirty
  | CReinitializeProvidedProps (entries : list (string * Value))
  | CClient (h : Heap).

(** The state a call leaves behind, also when it threw half way. *)
Definition step (m : Machine) (c : Call) : Machine :=
  match c with
  | CGet name => snd (get name m)
  | CHas name => snd (has name m)
  | CSet name value => snd (set name value m)
  | CGetOriginalProps => snd (getOriginalProps m)
  | CGetDirtyProps => snd (getDirtyProps m)
  | CFlushDirtyPropsToPending => snd (flushDirtyPropsToPending m)
  | CReinitializeAllProps newProps => snd (reinitializeAllProps newProps m)
  | CPushPendingPropsBackToDirty => snd (pushPendingPropsBackToDirty m)
  | CReinitializeProvidedProps entries => snd (reinitializeProvidedProps entries m)
  | CClient h => set_heap h m
  end.

Definition run (calls : list Call) (m : Machine) : Machine :=
  foldl step m calls.

(** The normalized names of all the [set] calls of a sequence. *)
Definition writtenNames (calls : list Call) : gset string :=
  foldl (fun acc c =>
           match c with
           | CSet name _ => {[normalizeModelName name]} ∪ acc
           | _ => acc
           end) ∅ calls.

End Store.

(** A call that leaves pending alone: any call but the three that move or
    drop whole maps. *)
Definition quiet (c : Call) : bool :=
  match c with
  | CFlushDirtyPropsToPending
  | CReinitializeAllProps _
  | CPushPendingPropsBackToDirty => false
  | _ => true
  end.

(** ** The helpers as the specification describes them *)

(** Modelled from the spec: the name normalizer of [string_utils], which
    is not part of this unit.  It turns bracketed path notation into dotted
    form, [a[b][c]] into [a.b.c]: an opening bracket becomes the separator
    and a closing bracket disappears. *)
Fixpoint normalizeModelName_spec (model : string) : string :=
  match model with
  | "" => ""
  | String c rest =>
      if Ascii.eqb c "["%char then String "." (normalizeModelName_spec rest)
      else if Ascii.eqb c "]"%char then normalizeModelName_spec rest
      else String c (normalizeModelName_spec rest)
  end.

(** [path.split('.')] *)
Fixpoint splitPath (path : string) : list string :=
  match path with
  | "" => [""]
  | String c rest =>
      if Ascii.eqb c "."%char then "" :: splitPath rest
      else match splitPath rest with
           | part :: parts => String c part :: parts
           | [] => [String c ""]
           end
  end.

(** Modelled from the spec: the deep getter of [data_manipulation_utils],
    which is not part of this unit.  It splits the normalized path on the
    separator and descends one key of the mapping per part; an absent
    intermediate key yields [undefined] instead of an exception, and a
    stored [null] comes back as [null]. *)
Definition getDeepData_spec (h : Heap) (data : Value) (propertyPath : string) : Value :=
  foldl (fun current part =>
           match current with
           | VObj a => member (deref h a) part
           | _ => VUndefined
           end) data (splitPath propertyPath).

Definition specUtils : Utils :=
  {| normalizeModelName := normalizeModelName_spec; getDeepData := getDeepData_spec |}.

(** ** What [get] computes *)

(** [identifierOf h v] is [Some id] when [v] is an object (not a function)
    that carries the identifier marker, with [id] what [v['@id']] reads. *)
Definition identifierOf (h : Heap) (v : Value) : option Value :=
  match v with
  | VObj a =>
      if callable (object_at h a) then None
      else
        let id := propertyOf h a identifierKey in
        if defined id then Some id else None
  | _ => None
  end.

(** The value [get] hands out once the deep lookup in the original props
    gave [value]. *)
Definition originalTier (h : Heap) (normalizedName : string) (value : Value) : Value :=
  if isPropNameTopLevel normalizedName then
    match identifierOf h value with
    | Some id => id
    | None => value
    end
  else value.

(** The value a name resolves to, tier by tier, before any extraction. *)
Definition tierValue {U : Utils} (m : Machine) (name : string) : Value :=
  let n := normalizeModelName name in
  if defined (dirtyMember m n) then dirtyMember m n
  else if defined (pendingMember m n) then pendingMember m n
  else getDeepData (heap m) (props m) n.


(** The state after [this.dirtyProps[k] = x]. *)
Definition assigned (k : string) (x : Value) (m : Machine) : Machine :=
  if protoSetterRuns m k then
    match x with
    | VObj _ | VNull => set_dirtyProto x m
    | _ => m
    end
  else set_dirtyProps (<[k := x]> (dirtyProps m)) m.


(** The names held by both dirty and pending. *)
Definition overlap (m : Machine) : gset string :=
  dom (dirtyProps m) ∩ dom (pendingProps m).

#[local] Instance Value_eq_dec : EqDecision Value.
Proof. solve_decision. Defined.

(** ** Example states *)

(** The built-in objects the examples meet: [Object.prototype] with its
    data members (all functions, none enumerable), the [Object] function
    and [Function.prototype]. *)
Definition objectFunction : positive := 65.
Definition functionPrototype : positive := 66.

Definition builtin : Object := mkObject ∅ ∅ (VObj functionPrototype) true.

Definition objectPrototypeMembers : list (string * positive) :=
  [ ("toString", 67%positive); ("valueOf", 68%positive);
    ("hasOwnProperty", 69%positive); ("isPrototypeOf", 70%positive);
    ("propertyIsEnumerable", 71%positive); ("toLocaleString", 72%positive);
    ("__defineGetter__", 73%positive); ("__defineSetter__", 74%positive);
    ("__lookupGetter__", 75%positive); ("__lookupSetter__", 76%positive) ].

Definition realm : Heap :=
  <[ objectPrototype :=
       mkObject ∅
         (<[ "constructor" := VObj objectFunction ]>
            (list_to_map (prod_map id VObj <$> objectPrototypeMembers)))
         VNull false ]>
    (<[ objectFunction :=
          mkObject ∅ {[ "prototype" := VObj objectPrototype ]} (VObj functionPrototype) true ]>
       (<[ functionPrototype := mkObject ∅ ∅ (VObj objectPrototype) true ]>
          (list_to_map ((fun entry => (entry.2, builtin)) <$> objectPrototypeMembers)))).

(** A store over [{}]. *)
Definition emptyStore : Machine := constructor (<[ 1%positive := plain ∅ ]> realm) (VObj 1).

(** [{ user: { '@id': 123, firstName: 'Ryan' }, note: null }] at address 1. *)
Definition userHeap : Heap :=
  <[ 1%positive := plain {[ "user" := VObj 2; "note" := VNull ]} ]>
    (<[ 2%positive := plain {[ "@id" := VNum 123; "firstName" := VStr "Ryan" ]} ]> realm).

Definition userStore : Machine := constructor userHeap (VObj 1).

(** The same store with edits of [count], [flag] and [page] pending and
    edits of [title], [count] and [gone] not yet sent. *)
Definition tieredStore : Machine :=
  mkMachine userHeap (VObj 1)
    {[ "title" := VStr "new"; "count" := VNum 2; "gone" := VNull ]}
    {[ "count" := VNum 1; "flag" := VNull; "page" := VNum 7 ]}
    (VObj objectPrototype).

(** A store over [{}] whose client writes the object at address 2 under
    [user]. *)
Definition editedUserHeap : Heap :=
  <[ 1%positive := plain ∅ ]>
    (<[ 2%positive := plain {[ "@id" := VNum 123; "firstName" := VStr "Ryan" ]} ]> realm).

Definition editedUserStore : Machine :=
  run (U := specUtils) [CSet "user" (VObj 2)] (constructor editedUserHeap (VObj 1)).

(** A store over [{}] at address 1; the server's answer [{a: 1, b: 2, c: 3}]
    waits at address 2. *)
Definition roundTripHeap : Heap :=
  <[ 1%positive := plain ∅ ]>
    (<[ 2%positive := plain {[ "a" := VNum 1; "b" := VNum 2; "c" := VNum 3 ]} ]> realm).

Definition roundTripStart : Machine :=
  run (U := specUtils) [CSet "a" (VNum 1); CSet "b" (VNum 2)]
    (constructor roundTripHeap (VObj 1)).

(** An edit of [a] made while the request carrying an older edit of [a] is
    still in flight. *)
Definition editInFlight : list Call :=
  [CSet "a" (VNum 1); CFlushDirtyPropsToPending; CSet "a" (VNum 2)].

Definition inFlightStore : Machine :=
  run (U := specUtils) editInFlight (constructor roundTripHeap (VObj 1)).

(** The store over [userHeap] after its client built two candidate values
    for [user]: the same entity with another first name at address 3,
    another entity at address 4. *)
Definition patchHeap : Heap :=
  <[ 3%positive := plain {[ "@id" := VNum 123; "firstName" := VStr "Changed" ]} ]>
    (<[ 4%positive := plain {[ "@id" := VNum 456; "firstName" := VStr "Kevin" ]} ]> userHeap).

Definition patchStore : Machine :=
  run (U := specUtils) [CClient patchHeap] userStore.

(** [{ user: { '@id': NaN } }] at address 1. *)
Definition nanHeap : Heap :=
  <[ 1%positive := plain {[ "user" := VObj 2 ]} ]>
    (<[ 2%positive := plain {[ "@id" := VNaN ]} ]> realm).

Definition nanStore : Machine := constructor nanHeap (VObj 1).



(** A store whose client wrote [undefined] over an edit that is also
    pending. *)
Definition maskedStore : Machine :=
  mkMachine userHeap (VObj 1) {[ "page" := VUndefined ]} {[ "page" := VNum 7 ]}
    (VObj objectPrototype).

(** What a client does while the request started from [roundTripStart] is
    on its way. *)
Definition editsDuringRequest : list Call :=
  [CSet "a" (VNum 5); CGet "b"; CSet "c" (VNum 9)].

(** [{ user: { '@id': 123, profile: { '@id': 9 } } }] at address 1. *)
Definition nestedHeap : Heap :=
  <[ 1%positive := plain {[ "user" := VObj 2 ]} ]>
    (<[ 2%positive := plain {[ "@id" := VNum 123; "profile" := VObj 3 ]} ]>
       (<[ 3%positive := plain {[ "@id" := VNum 9 ]} ]> realm)).

Definition nestedStore : Machine := constructor nestedHeap (VObj 1).

(** A store built over [null], and one built over the number 5. *)
Definition nullStore : Machine := constructor userHeap VNull.
Definition numberStore : Machine := constructor userHeap (VNum 5).

(** A store over [{}] at address 1 whose client built, at address 2, an
    object that inherits from it. *)
Definition heirHeap : Heap :=
  <[ 1%positive := plain ∅ ]>
    (<[ 2%positive := mkObject ∅ ∅ (VObj 1) false ]> realm).

Definition heirStore : Machine := constructor heirHeap (VObj 1).

(** A store over [{}] at address 1 whose client made [{'a.b': 1}], at
    address 2, the prototype of dirty. *)
Definition adoptedHeap : Heap :=
  <[ 1%positive := plain ∅ ]>
    (<[ 2%positive := plain {[ "a.b" := VNum 1 ]} ]> realm).

Definition adoptedStore : Machine :=
  run (U := specUtils) [CSet "__proto__" (VObj 2)] (constructor adoptedHeap (VObj 1)).

(** A store with an edit of [k] pending whose client then made the
    original props the prototype of dirty. *)
Definition mirroredStore : Machine :=
  run (U := specUtils)
    [CSet "k" (VNum 1); CFlushDirtyPropsToPending; CSet "__proto__" (VObj 1)]
    (constructor roundTripHeap (VObj 1)).

(** [{ constructor: { '@id': 5 } }] at address 1. *)
Definition shadowHeap : Heap :=
  <[ 1%positive := plain {[ "constructor" := VObj 2 ]} ]>
    (<[ 2%positive := plain {[ "@id" := VNum 5 ]} ]> realm).

Definition shadowStore : Machine := constructor shadowHeap (VObj 1).

(** Closes [x ≠ y] between closed terms by evaluation. *)
Ltac differs := let H := fresh in intros H; vm_compute in H; discriminate H.

Section Proofs.
Context {U : Utils}.

Definition resolve (m : Machine) (name : string) : Value :=
  let n := normalizeModelName name in
  if defined (dirtyMember m n) then dirtyMember m n
  else if defined (pendingMember m n) then pendingMember m n
  else originalTier (heap m) n (getDeepData (heap m) (props m) n).

Lemma strict_eq_refl (v : Value) : v ≠ VNaN -> strict_eq v v = true.
Proof.
  destruct v; simpl; intros Hv; try done.
  - by destruct b.
  - apply Z.eqb_refl.
  - apply String.eqb_refl.
  - apply Pos.eqb_refl.
Qed.


Lemma defined_false (v : Value) : defined v = false <-> v = VUndefined.
Proof. destruct v; simpl; split; intros H; try done. Qed.

Lemma defined_true (v : Value) : v ≠ VUndefined -> defined v = true.
Proof. intros Hv. destruct (defined v) eqn:E; [done |]. by apply defined_false in E. Qed.

Lemma originalTier_eval (m : Machine) (n : string) (value : Value) :
  (if strict_eq VNull value then ret value else
   if isPropNameTopLevel n then
     ty <- read (fun m => typeof (heap m) value) ;;
     if String.eqb ty "object" then
       id <- getMember value identifierKey ;;
       if defined id then getMember value identifierKey else ret value
     else ret value
   else ret value) m = (Normal (originalTier (heap m) n value), m).
Proof.
  unfold originalTier.
  destruct value; simpl; destruct (isPropNameTopLevel n); simpl; try done.
  unfold bind, read; simpl.
  destruct (callable (object_at (heap m) a)); simpl; [done |].
  by destruct (defined (propertyOf (heap m) a identifierKey)).
Qed.

(** [get] never throws and never changes the state. *)
Lemma get_resolve (name : string) (m : Machine) :
  get name m = (Normal (resolve m name), m).
Proof.
  unfold get, resolve, bind, read; simpl.
  destruct (defined (dirtyMember m _)); [done |].
  destruct (defined (pendingMember m _)); [done |].
  apply originalTier_eval.
Qed.

Lemma has_resolve (name : string) (m : Machine) :
  has name m = (Normal (defined (resolve m name)), m).
Proof. unfold has, bind. by rewrite get_resolve. Qed.

Lemma assignDirty_assigned (k : string) (x : Value) (m : Machine) :
  assignDirty k x m = (Normal tt, assigned k x m).
Proof.
  unfold assignDirty, assigned, bind, read; simpl.
  destruct (protoSetterRuns m k); [| done]. by destruct x.
Qed.

Lemma set_resolve (name : string) (value : Value) (m : Machine) :
  set name value m =
    if strict_eq (resolve m (normalizeModelName name)) value then (Normal false, m)
    else (Normal true, assigned (normalizeModelName name) value m).
Proof.
  unfold set, bind. rewrite get_resolve.
  destruct (strict_eq _ value); [done |].
  by rewrite assignDirty_assigned.
Qed.

(** An assignment to dirty leaves the heap, the original props and pending
    alone, and dirty's own properties as they were or with the one entry
    more. *)
Lemma assigned_frame (k : string) (x : Value) (m : Machine) :
  heap (assigned k x m) = heap m ∧
  props (assigned k x m) = props m ∧
  pendingProps (assigned k x m) = pendingProps m ∧
  (dirtyProps (assigned k x m) = dirtyProps m ∨
   dirtyProps (assigned k x m) = <[k := x]> (dirtyProps m)).
Proof.
  unfold assigned. destruct (protoSetterRuns m k).
  - destruct x; simpl; auto.
  - simpl. auto.
Qed.



Lemma dirtyMember_own (m : Machine) (k : string) :
  inheritedDirty m k = VUndefined -> dirtyMember m k = member (dirtyProps m) k.
Proof. intros Hi. unfold dirtyMember, member. by destruct (dirtyProps m !! k). Qed.

Lemma pendingMember_own (m : Machine) (k : string) :
  inheritedPending m k = VUndefined -> pendingMember m k = member (pendingProps m) k.
Proof. intros Hi. unfold pendingMember, member. by destruct (pendingProps m !! k). Qed.

(** An own entry of dirty other than [undefined] is what the read of dirty
    gives. *)
Lemma dirtyMember_entry (m : Machine) (k : string) :
  member (dirtyProps m) k ≠ VUndefined -> dirtyMember m k = member (dirtyProps m) k.
Proof. unfold dirtyMember, member. by destruct (dirtyProps m !! k). Qed.


Lemma resolve_dirty (name : string) (m : Machine) :
  dirtyMember m (normalizeModelName name) ≠ VUndefined ->
  resolve m name = dirtyMember m (normalizeModelName name).
Proof. intros Hd. unfold resolve. by rewrite (defined_true _ Hd). Qed.

Lemma resolve_pending (name : string) (m : Machine) :
  dirtyMember m (normalizeModelName name) = VUndefined ->
  pendingMember m (normalizeModelName name) ≠ VUndefined ->
  resolve m name = pendingMember m (normalizeModelName name).
Proof.
  intros Hd Hp. unfold resolve. rewrite Hd. simpl. by rewrite (defined_true _ Hp).
Qed.

Lemma resolve_original (name : string) (m : Machine) :
  dirtyMember m (normalizeModelName name) = VUndefined ->
  pendingMember m (normalizeModelName name) = VUndefined ->
  resolve m name =
    originalTier (heap m) (normalizeModelName name)
      (getDeepData (heap m) (props m) (normalizeModelName name)).
Proof. intros Hd Hp. unfold resolve. by rewrite Hd, Hp. Qed.




(** C2, as amended. For a name that is top-level after normalization and
    reads as [undefined] off dirty and off pending (no entry, and no
    inherited member either), when the deep lookup in the original props
    finds an object carrying ["@id"], [get] returns the value read under
    ["@id"].  A value read off dirty or off pending is returned as it is,
    marker or not. *)
Theorem get_extracts_identifier_from_original (name : string) (m : Machine) :
  let n := normalizeModelName name in
  (forall id : Value,
     isPropNameTopLevel n = true ->
     dirtyMember m n = VUndefined ->
     pendingMember m n = VUndefined ->
     identifierOf (heap m) (getDeepData (heap m) (props m) n) = Some id ->
     get name m = (Normal id, m)) ∧
  (dirtyMember m n ≠ VUndefined ->
     get name m = (Normal (dirtyMember m n), m)) ∧
  (dirtyMember m n = VUndefined ->
   pendingMember m n ≠ VUndefined ->
     get name m = (Normal (pendingMember m n), m)).
Proof.
  intros n. rewrite get_resolve.
  split; [| split].
  - intros id Htop Hdirty Hpending Hid.
    rewrite resolve_original by done. fold n. unfold originalTier.
    by rewrite Htop, Hid.
  - intros Hd. by rewrite resolve_dirty.
  - intros Hd Hp. by rewrite resolve_pending.
Qed.


(** C4. [flushDirtyPropsToPending] makes pending the dirty map and empties
    dirty; [reinitializeAllProps] then installs the new props as the
    original, empties pending and leaves dirty as it found it.  From dirty
    [{a: 1, b: 2}], flushing and reinitializing with [{a: 1, b: 2, c: 3}]
    ends with dirty and pending empty and [get('c')] equal to 3. *)
Theorem flush_then_reinitializeAll :
  (forall m : Machine,
     flushDirtyPropsToPending m =
       (Normal tt,
        mkMachine (heap m) (props m) ∅ (dirtyProps m) (VObj objectPrototype))) ∧
  (forall (newProps : Value) (m : Machine),
     reinitializeAllProps newProps m =
       (Normal tt, mkMachine (heap m) newProps (dirtyProps m) ∅ (dirtyProto m))) ∧
  dirtyProps roundTripStart = {[ "a" := VNum 1; "b" := VNum 2 ]} ∧
  (let m1 := snd (flushDirtyPropsToPending roundTripStart) in
   let m2 := snd (reinitializeAllProps (VObj 2) m1) in
   dirtyProps m2 = ∅ ∧
   pendingProps m2 = ∅ ∧
   deref (heap m2) 2 = {[ "a" := VNum 1; "b" := VNum 2; "c" := VNum 3 ]} ∧
   get (U := specUtils) "c" m2 = (Normal (VNum 3), m2)).
Proof.
  split; [done |]. split; [done |].
  split; [by vm_compute |].
  by vm_compute.
Qed.

(** C5. [pushPendingPropsBackToDirty] makes dirty the merge in which a key
    of dirty keeps its dirty value and any other key takes its pending
    value, and empties pending.  From dirty [{a: 2}] and pending [{a: 1}] it
    ends with dirty [{a: 2}] and pending empty. *)
Theorem pushPendingPropsBackToDirty_keeps_dirty :
  (forall m : Machine,
     exists m' : Machine,
       pushPendingPropsBackToDirty m = (Normal tt, m') ∧
       (forall k : string,
          dirtyProps m' !! k =
            match dirtyProps m !! k with
            | Some v => Some v
            | None => pendingProps m !! k
            end) ∧
       pendingProps m' = ∅ ∧
       props m' = props m ∧
       heap m' = heap m ∧
       dirtyProto m' = VObj objectPrototype) ∧
  dirtyProps inFlightStore = {[ "a" := VNum 2 ]} ∧
  pendingProps inFlightStore = {[ "a" := VNum 1 ]} ∧
  (let m' := snd (pushPendingPropsBackToDirty inFlightStore) in
   dirtyProps m' = {[ "a" := VNum 2 ]} ∧ pendingProps m' = ∅).
Proof.
  split.
  - intros m. eexists. split; [reflexivity |]. simpl.
    repeat split. intros k. rewrite lookup_union.
    by destruct (dirtyProps m !! k), (pendingProps m !! k).
  - by vm_compute.
Qed.

(** *** [reinitializeProvidedProps] *)

Lemma findIdentifier_null (m : Machine) :
  findIdentifier VNull m = (Throw TypeError, m).
Proof. reflexivity. Qed.

(** Away from [null] the extraction is total: the identifier of an object
    carrying the marker, the value itself otherwise. *)
Lemma findIdentifier_not_null (value : Value) (m : Machine) :
  value ≠ VNull ->
  findIdentifier value m =
    (Normal (default value (identifierOf (heap m) value)), m).
Proof.
  intros Hv. destruct value; try done.
  unfold findIdentifier, bind, read; simpl.
  destruct (callable (object_at (heap m) a)); simpl; [done |].
  unfold defined.
  by destruct (strict_eq (propertyOf (heap m) a identifierKey) VUndefined).
Qed.

Lemma findIdentifier_state (value : Value) (m : Machine) :
  snd (findIdentifier value m) = m.
Proof.
  destruct (decide (value = VNull)) as [-> | Hv]; [done |].
  by rewrite findIdentifier_not_null.
Qed.

Lemma set_heap_id (m : Machine) : set_heap (heap m) m = m.
Proof. by destruct m. Qed.

Lemma deref_insert_eq (h : Heap) (a : positive) (o : Object) :
  deref (<[a := o]> h) a = own o.
Proof. unfold deref, object_at. by rewrite lookup_insert_eq. Qed.

Lemma deref_insert_ne (h : Heap) (a b : positive) (o : Object) :
  a ≠ b -> deref (<[a := o]> h) b = deref h b.
Proof. intros Hab. unfold deref, object_at. by rewrite lookup_insert_ne. Qed.

Lemma own_putOwn (o : Object) (k : string) (x : Value) :
  own (putOwn o k x) = own o ∨ own (putOwn o k x) = <[k := x]> (own o).
Proof. unfold putOwn. destruct (own o !! k), (hidden o !! k); simpl; auto. Qed.

(** What an assignment to a property of [v] can do: nothing to the state,
    or replace the object [v] points to by one whose enumerable properties
    are as before or have the one entry more. *)
Lemma setMember_effect (v : Value) (k : string) (x : Value) (m : Machine) :
  (exists r : Completion unit, setMember v k x m = (r, m)) ∨
  (exists (a : positive) (o' : Object),
     v = VObj a ∧
     setMember v k x m = (Normal tt, set_heap (<[a := o']> (heap m)) m) ∧
     (own o' = deref (heap m) a ∨ own o' = <[k := x]> (deref (heap m) a))).
Proof.
  destruct v;
    try (left; eexists; reflexivity);
    try (left; unfold setMember; destruct (String.eqb k "__proto__"); eexists; reflexivity).
  unfold setMember, bind, read. cbv beta iota.
  destruct (String.eqb k "__proto__" && _).
  - destruct x; try (left; eexists; reflexivity).
    + destruct (strict_eq VNull _); [left; eexists; reflexivity |].
      destruct (bool_decide (a = objectPrototype)); [left; eexists; reflexivity |].
      destruct (inChain _ _ _ _); [left; eexists; reflexivity |].
      right. eexists a, _. split; [done |]. split; [reflexivity |]. by left.
    + destruct (strict_eq (VObj a0) _); [left; eexists; reflexivity |].
      destruct (bool_decide (a = objectPrototype)); [left; eexists; reflexivity |].
      destruct (inChain _ _ _ _); [left; eexists; reflexivity |].
      right. eexists a, _. split; [done |]. split; [reflexivity |]. by left.
  - right. eexists a, _. split; [done |]. split; [reflexivity |]. apply own_putOwn.
Qed.


Lemma reinitializeEntries_unfold
    (key : string) (value : Value) (rest : list (string * Value))
    (changed : bool) (m : Machine) :
  reinitializeEntries ((key, value) :: rest) changed m =
    if decide (value = VNull) then (Throw TypeError, m)
    else if strict_eq (resolve m key) (default value (identifierOf (heap m) value))
         then reinitializeEntries rest changed m
         else match setMember (props m) key value m with
              | (Normal _, m') => reinitializeEntries rest true m'
              | (Throw e, m') => (Throw e, m')
              end.
Proof.
  simpl. unfold bind at 1. rewrite get_resolve. unfold bind at 1.
  case_decide as Hv; [by subst |].
  rewrite (findIdentifier_not_null _ _ Hv).
  destruct (strict_eq _ _); [done |]. simpl.
  unfold bind at 1. unfold read at 1. unfold bind at 1.
  by destruct (setMember (props m) key value m) as [[[] | e] m'].
Qed.

(** Where the loop writes: on the object the original props point to, under
    keys of the entries, the values of the entries. *)
Lemma reinitializeEntries_heap (entries : list (string * Value)) :
  forall (changed : bool) (m : Machine),
    exists (r : Completion bool) (h' : Heap),
      reinitializeEntries entries changed m = (r, set_heap h' m) ∧
      (forall a b : positive, props m = VObj a -> b ≠ a -> h' !! b = heap m !! b) ∧
      (forall (a : positive) (key : string),
         props m = VObj a ->
         member (deref h' a) key = member (deref (heap m) a) key ∨
         exists value : Value, (key, value) ∈ entries ∧ member (deref h' a) key = value) ∧
      ((forall a : positive, props m ≠ VObj a) -> h' = heap m).
Proof.
  induction entries as [| [key value] rest IH]; intros changed m.
  { exists (Normal changed), (heap m). rewrite set_heap_id. repeat split; auto. }
  rewrite reinitializeEntries_unfold. case_decide as Hv.
  { exists (Throw TypeError), (heap m). rewrite set_heap_id. repeat split; auto. }
  destruct (strict_eq _ _).
  - destruct (IH changed m) as (r & h' & -> & Hother & Hkeys & Hnon).
    exists r, h'. repeat split; [done | | done].
    intros a k Hp. destruct (Hkeys a k Hp) as [? | (v & Hin & ?)]; [by left |].
    right. exists v. split; [by apply list_elem_of_further | done].
  - destruct (setMember_effect (props m) key value m)
      as [[r0 ->] | (a & o' & Hp & -> & Hown)].
    + destruct r0 as [[] | e].
      * destruct (IH true m) as (r & h' & -> & Hother & Hkeys & Hnon).
        exists r, h'. repeat split; [done | | done].
        intros a k Hp. destruct (Hkeys a k Hp) as [? | (v & Hin & ?)]; [by left |].
        right. exists v. split; [by apply list_elem_of_further | done].
      * exists (Throw e), (heap m). rewrite set_heap_id. repeat split; auto.
    + destruct (IH true (set_heap (<[a := o']> (heap m)) m))
        as (r & h' & -> & Hother & Hkeys & _).
      exists r, h'. simpl in *. repeat split.
      * intros a1 b Hp1 Hb. assert (a1 = a) as -> by congruence.
        rewrite (Hother a b Hp Hb). by rewrite lookup_insert_ne.
      * intros a1 k Hp1. assert (a1 = a) as -> by congruence.
        destruct (Hkeys a k Hp) as [Hold | (v & Hin & Hval)].
        -- rewrite deref_insert_eq in Hold.
           destruct Hown as [Hown | Hown]; rewrite Hown in Hold.
           ++ by left.
           ++ unfold member in Hold at 2.
              destruct (decide (key = k)) as [<- | Hk].
              ** rewrite lookup_insert_eq in Hold. right. exists value.
                 split; [apply list_elem_of_here | done].
              ** rewrite lookup_insert_ne in Hold by done. by left.
        -- right. exists v. split; [by apply list_elem_of_further | done].
      * intros Hnon. by destruct (Hnon a).
Qed.

(** The loop writes to the heap only. *)
Lemma reinitializeEntries_frame (entries : list (string * Value)) :
  forall (changed : bool) (m : Machine),
    exists (r : Completion bool) (h' : Heap),
      reinitializeEntries entries changed m = (r, set_heap h' m).
Proof.
  intros changed m.
  destruct (reinitializeEntries_heap entries changed m) as (r & h' & Hr & _).
  by exists r, h'.
Qed.

(** C6. The claimed comparison gives [null] its own value as identifier, so
    for the patch [{user: null}] over original
    [{user: {'@id': 123, ...}}] the identifiers 123 and [null] differ and
    the call should overwrite [user] and return [true].  The code resolves
    the current identifier to 123 and then throws inside [findIdentifier],
    leaving the original props as they were. *)
Theorem reinitializeProvidedProps_null_over_identifier :
  get (U := specUtils) "user" userStore = (Normal (VNum 123), userStore) ∧
  strict_eq (VNum 123) VNull = false ∧
  reinitializeProvidedProps (U := specUtils) [("user", VNull)] userStore =
    (Throw TypeError, userStore).
Proof. by vm_compute. Qed.



(** *** Names held by both dirty and pending *)

Lemma run_app (calls1 calls2 : list Call) (m : Machine) :
  run (calls1 ++ calls2) m = run calls2 (run calls1 m).
Proof. unfold run. apply foldl_app. Qed.

Lemma step_quiet_pending (m : Machine) (c : Call) :
  quiet c = true -> pendingProps (step m c) = pendingProps m.
Proof.
  intros Hq. destruct c; simpl in *; try done.
  - by rewrite get_resolve.
  - by rewrite has_resolve.
  - rewrite set_resolve. destruct (strict_eq _ value); [done |].
    apply assigned_frame.
  - unfold reinitializeProvidedProps.
    by destruct (reinitializeEntries_frame entries false m) as (r & h' & ->).
Qed.

Lemma run_quiet_pending (calls : list Call) :
  forall m : Machine,
    forallb quiet calls = true -> pendingProps (run calls m) = pendingProps m.
Proof.
  induction calls as [| c calls IH]; intros m Hq; [done |].
  simpl in Hq. apply andb_prop in Hq as [Hc Hq].
  simpl. rewrite (IH _ Hq). by apply step_quiet_pending.
Qed.

Lemma step_quiet_dirty (m : Machine) (c : Call) (acc : gset string) :
  quiet c = true ->
  dom (dirtyProps m) ⊆ acc ->
  dom (dirtyProps (step m c)) ⊆
    match c with
    | CSet name _ => {[normalizeModelName name]} ∪ acc
    | _ => acc
    end.
Proof.
  intros Hq Hacc. destruct c; simpl in *; try done.
  - by rewrite get_resolve.
  - by rewrite has_resolve.
  - rewrite set_resolve. destruct (strict_eq _ value); simpl; [set_solver |].
    destruct (assigned_frame (normalizeModelName name) value m)
      as (_ & _ & _ & [-> | ->]); [set_solver |].
    rewrite dom_insert_L. set_solver.
  - unfold reinitializeProvidedProps.
    by destruct (reinitializeEntries_frame entries false m) as (r & h' & ->).
Qed.

Lemma run_quiet_dirty (calls : list Call) :
  forall (m : Machine) (acc : gset string),
    forallb quiet calls = true ->
    dom (dirtyProps m) ⊆ acc ->
    dom (dirtyProps (run calls m)) ⊆
      foldl (fun acc c =>
               match c with
               | CSet name _ => {[normalizeModelName name]} ∪ acc
               | _ => acc
               end) acc calls.
Proof.
  induction calls as [| c calls IH]; intros m acc Hq Hacc; [done |].
  simpl in Hq. apply andb_prop in Hq as [Hc Hq].
  simpl. apply IH; [done |].
  pose proof (step_quiet_dirty m c acc Hc Hacc) as Hs. by destruct c.
Qed.

(** Every sequence of calls is quiet throughout, or ends with one of the
    three calls that move or drop whole maps followed by quiet calls. *)
Lemma last_loud_call (calls : list Call) :
  forallb quiet calls = true ∨
  exists (before : list Call) (c : Call) (during : list Call),
    calls = (before ++ c :: during)%list ∧
    forallb quiet during = true ∧
    (c = CFlushDirtyPropsToPending ∨
     c = CPushPendingPropsBackToDirty ∨
     exists newProps : Value, c = CReinitializeAllProps newProps).
Proof.
  induction calls as [| x calls IH] using rev_ind; [by left |].
  destruct (quiet x) eqn:Hx.
  - destruct IH as [Hq | (before & c & during & -> & Hq & Hc)].
    + left. rewrite forallb_app. simpl. by rewrite Hq, Hx.
    + right. exists before, c, (during ++ [x])%list. split; [by rewrite <- app_assoc |].
      split; [| done]. rewrite forallb_app. simpl. by rewrite Hq, Hx.
  - right. exists calls, x, []. split; [done |]. split; [done |].
    destruct x; try discriminate Hx; eauto.
Qed.

(** C9, as amended. In every state reached from construction by any
    sequence of the store's operations, a name appears in at most one of
    dirty and pending, except while a request is in flight, that is after a
    [flushDirtyPropsToPending] that no [reinitializeAllProps] or
    [pushPendingPropsBackToDirty] has followed yet: there pending is the
    dirty map as the flush found it, and a name is in both maps only if it
    was dirty at the flush and [set] has written it again since.  After a
    [reinitializeAllProps] or a [pushPendingPropsBackToDirty], and before
    the first of the three calls, pending is empty and no name is in both.
    An overlap is resolved with dirty taking precedence: [get] answers with
    the dirty entry whenever that entry is not [undefined]. *)
Theorem overlap_only_after_edit
    (h : Heap) (p : Value) (before during : list Call) :
  forallb quiet during = true ->
  let start := constructor h p in
  let atFlush := run before start in
  let m := run (before ++ CFlushDirtyPropsToPending :: during) start in
  pendingProps m = dirtyProps atFlush ∧
  overlap m ⊆ dom (dirtyProps atFlush) ∩ writtenNames during ∧
  (forall newProps : Value,
     let m' := run (before ++ CReinitializeAllProps newProps :: during) start in
     pendingProps m' = ∅ ∧ overlap m' = ∅) ∧
  (let m' := run (before ++ CPushPendingPropsBackToDirty :: during) start in
   pendingProps m' = ∅ ∧ overlap m' = ∅) ∧
  pendingProps (run during start) = ∅ ∧
  overlap (run during start) = ∅ ∧
  (forall name : string,
     member (dirtyProps m) (normalizeModelName name) ≠ VUndefined ->
     get name m = (Normal (member (dirtyProps m) (normalizeModelName name)), m)) ∧
  (forall calls : list Call,
     forallb quiet calls = true ∨
     exists (before' : list Call) (c : Call) (during' : list Call),
       calls = (before' ++ c :: during')%list ∧
       forallb quiet during' = true ∧
       (c = CFlushDirtyPropsToPending ∨
        c = CPushPendingPropsBackToDirty ∨
        exists newProps : Value, c = CReinitializeAllProps newProps)).
Proof.
  intros Hq start atFlush m.
  assert (pendingProps m = dirtyProps atFlush) as Hp.
  { subst m. rewrite run_app. simpl. by rewrite run_quiet_pending. }
  assert (forall m0 : Machine, pendingProps m0 = ∅ -> overlap m0 = ∅) as Hempty.
  { intros m0 H0. unfold overlap. rewrite H0. set_solver. }
  split; [done |]. split; [| split; [| split; [| split; [| split; [| split]]]]].
  - unfold overlap. rewrite Hp.
    assert (dom (dirtyProps m) ⊆ writtenNames during) as Hd.
    { subst m. rewrite run_app. simpl. unfold writtenNames.
      apply run_quiet_dirty; [done |]. simpl. set_solver. }
    set_solver.
  - intros newProps m'.
    assert (pendingProps m' = ∅) as H0
      by (subst m'; rewrite run_app; simpl; by rewrite run_quiet_pending).
    auto.
  - intros m'.
    assert (pendingProps m' = ∅) as H0
      by (subst m'; rewrite run_app; simpl; by rewrite run_quiet_pending).
    auto.
  - by rewrite run_quiet_pending.
  - apply Hempty. by rewrite run_quiet_pending.
  - intros name Hd. rewrite get_resolve.
    rewrite resolve_dirty; rewrite dirtyMember_entry; done.
  - apply last_loud_call.
Qed.

(** C10, as amended. For a name whose twice-normalized form (what [set]
    hands to [get], and [get] looks up) is top-level and reads as
    [undefined] off dirty and off pending (no entry, and no inherited member
    either), when the deep lookup in the original props finds an object
    carrying ["@id"] with an identifier [v] other than [NaN], [set(name, v)]
    returns [false] and changes nothing. *)
Theorem set_identifier_of_original_is_noop (name : string) (v : Value) (m : Machine) :
  let nn := normalizeModelName (normalizeModelName name) in
  isPropNameTopLevel nn = true ->
  dirtyMember m nn = VUndefined ->
  pendingMember m nn = VUndefined ->
  identifierOf (heap m) (getDeepData (heap m) (props m) nn) = Some v ->
  v ≠ VNaN ->
  set name v m = (Normal false, m).
Proof.
  intros nn Htop Hdirty Hpending Hid Hnan.
  rewrite set_resolve. unfold resolve. fold nn.
  rewrite Hdirty, Hpending. simpl. unfold originalTier.
  rewrite Htop, Hid. by rewrite (strict_eq_refl v Hnan).
Qed.

End Proofs.

(** ** The theorems at work on the example states *)



(** C2 as stated fails on a value resolved from dirty: after
    [set('user', o)] with [o = {'@id': 123, firstName: 'Ryan'}], the
    top-level name [user] resolves to [o], which carries the marker, and
    [get('user')] returns [o] itself, not 123.  It fails on an inherited
    name too: over original [{constructor: {'@id': 5}}], [get('constructor')]
    returns the [Object] function that dirty inherits, not 5. *)
Lemma get_returns_dirty_object_whole :
  (isPropNameTopLevel (normalizeModelName_spec "user") = true ∧
   tierValue (U := specUtils) editedUserStore "user" = VObj 2 ∧
   identifierOf (heap editedUserStore) (VObj 2) = Some (VNum 123) ∧
   get (U := specUtils) "user" editedUserStore = (Normal (VObj 2), editedUserStore) ∧
   get (U := specUtils) "user" editedUserStore ≠ (Normal (VNum 123), editedUserStore)) ∧
  (isPropNameTopLevel (normalizeModelName_spec "constructor") = true ∧
   dirtyProps shadowStore !! "constructor" = None ∧
   pendingProps shadowStore !! "constructor" = None ∧
   identifierOf (heap shadowStore)
     (getDeepData_spec (heap shadowStore) (props shadowStore) "constructor") =
     Some (VNum 5) ∧
   get (U := specUtils) "constructor" shadowStore =
     (Normal (VObj objectFunction), shadowStore)).
Proof.
  split.
  - split; [reflexivity |]. split; [reflexivity |]. split; [reflexivity |].
    split; [reflexivity |]. differs.
  - repeat split.
Qed.

Lemma get_extracts_identifier_from_original_witness :
  (isPropNameTopLevel "user" = true ∧
   dirtyMember userStore "user" = VUndefined ∧
   pendingMember userStore "user" = VUndefined ∧
   identifierOf userHeap (getDeepData_spec userHeap (VObj 1) "user") = Some (VNum 123) ∧
   get (U := specUtils) "user" userStore = (Normal (VNum 123), userStore)) ∧
  (dirtyMember editedUserStore "user" ≠ VUndefined ∧
   get (U := specUtils) "user" editedUserStore = (Normal (VObj 2), editedUserStore)) ∧
  (dirtyMember tieredStore "page" = VUndefined ∧
   pendingMember tieredStore "page" ≠ VUndefined ∧
   get (U := specUtils) "page" tieredStore = (Normal (VNum 7), tieredStore)).
Proof.
  split; [| split].
  - split; [reflexivity |]. split; [reflexivity |]. split; [reflexivity |].
    split; [reflexivity |].
    exact (proj1 (get_extracts_identifier_from_original (U := specUtils) "user" userStore)
             (VNum 123) eq_refl eq_refl eq_refl eq_refl).
  - split; [differs |].
    exact (proj1 (proj2
             (get_extracts_identifier_from_original (U := specUtils) "user" editedUserStore))
             ltac:(differs)).
  - split; [reflexivity |]. split; [differs |].
    exact (proj2 (proj2
             (get_extracts_identifier_from_original (U := specUtils) "page" tieredStore))
             eq_refl ltac:(differs)).
Defined.




(** The selective reinitialization on the two candidates: the same
    identifier leaves [user] alone and reports no change, another
    identifier replaces [user] by the new object and reports a change. *)
Lemma reinitializeProvidedProps_examples :
  reinitializeProvidedProps (U := specUtils) [("user", VObj 3)] patchStore =
    (Normal false, patchStore) ∧
  (let r := reinitializeProvidedProps (U := specUtils) [("user", VObj 4)] patchStore in
   fst r = Normal true ∧
   member (deref (heap (snd r)) 1) "user" = VObj 4 ∧
   get (U := specUtils) "user[firstName]" (snd r) = (Normal (VStr "Kevin"), snd r)).
Proof. split; [reflexivity |]. repeat split. Qed.

(** C9 as stated fails after an edit made while a request is in flight:
    [set('a', 1)], [flushDirtyPropsToPending()], [set('a', 2)] leaves [a] in
    dirty with 2 and in pending with 1, and no merge is under way. *)
Lemma edit_in_flight_overlaps :
  inFlightStore =
    run (U := specUtils)
      [CSet "a" (VNum 1); CFlushDirtyPropsToPending; CSet "a" (VNum 2)]
      (constructor roundTripHeap (VObj 1)) ∧
  dirtyProps inFlightStore !! "a" = Some (VNum 2) ∧
  pendingProps inFlightStore !! "a" = Some (VNum 1) ∧
  "a" ∈ dom (dirtyProps inFlightStore) ∧
  "a" ∈ dom (pendingProps inFlightStore).
Proof.
  split; [reflexivity |]. split; [reflexivity |]. split; [reflexivity |].
  split; apply elem_of_dom; by eexists.
Qed.

Lemma overlap_only_after_edit_witness :
  let m := inFlightStore in
  forallb quiet [CSet "a" (VNum 2)] = true ∧
  pendingProps m = {[ "a" := VNum 1 ]} ∧
  overlap m ⊆ {[ "a" ]} ∧
  member (dirtyProps m) "a" ≠ VUndefined ∧
  get (U := specUtils) "a" m = (Normal (VNum 2), m).
Proof.
  pose proof (overlap_only_after_edit (U := specUtils) roundTripHeap (VObj 1)
                [CSet "a" (VNum 1)] [CSet "a" (VNum 2)] eq_refl)
    as (Hp & Hsub & _ & _ & _ & _ & Hget & _).
  split; [reflexivity |]. split; [exact Hp |]. split; [exact Hsub |].
  split; [differs |].
  exact (Hget "a" ltac:(differs)).
Defined.

(** C10 as stated fails for the identifier [NaN]: over original
    [{user: {'@id': NaN}}], [get('user')] extracts [NaN], and
    [set('user', NaN)] finds [NaN === NaN] false, writes dirty and returns
    [true].  It fails on an inherited name too: over original
    [{constructor: {'@id': 5}}], [get('constructor')] is the [Object]
    function, so [set('constructor', 5)] writes dirty and returns [true]. *)
Lemma set_identifier_of_original_can_write :
  (isPropNameTopLevel (normalizeModelName_spec "user") = true ∧
   dirtyProps nanStore !! "user" = None ∧
   pendingProps nanStore !! "user" = None ∧
   getDeepData_spec (heap nanStore) (props nanStore) "user" = VObj 2 ∧
   identifierOf (heap nanStore) (VObj 2) = Some VNaN ∧
   set (U := specUtils) "user" VNaN nanStore =
     (Normal true, set_dirtyProps {[ "user" := VNaN ]} nanStore) ∧
   set (U := specUtils) "user" VNaN nanStore ≠ (Normal false, nanStore)) ∧
  (isPropNameTopLevel (normalizeModelName_spec "constructor") = true ∧
   dirtyProps shadowStore !! "constructor" = None ∧
   pendingProps shadowStore !! "constructor" = None ∧
   getDeepData_spec (heap shadowStore) (props shadowStore) "constructor" = VObj 2 ∧
   identifierOf (heap shadowStore) (VObj 2) = Some (VNum 5) ∧
   set (U := specUtils) "constructor" (VNum 5) shadowStore =
     (Normal true, set_dirtyProps {[ "constructor" := VNum 5 ]} shadowStore)).
Proof.
  split.
  - split; [reflexivity |]. split; [reflexivity |]. split; [reflexivity |].
    split; [reflexivity |]. split; [reflexivity |]. split; [reflexivity |].
    differs.
  - repeat split.
Qed.

Lemma set_identifier_of_original_is_noop_witness :
  isPropNameTopLevel "user" = true ∧
  dirtyMember userStore "user" = VUndefined ∧
  pendingMember userStore "user" = VUndefined ∧
  identifierOf userHeap (getDeepData_spec userHeap (VObj 1) "user") = Some (VNum 123) ∧
  set (U := specUtils) "user" (VNum 123) userStore = (Normal false, userStore).
Proof.
  split; [reflexivity |]. split; [reflexivity |]. split; [reflexivity |].
  split; [reflexivity |].
  exact (set_identifier_of_original_is_noop (U := specUtils) "user" (VNum 123) userStore
           eq_refl eq_refl eq_refl eq_refl ltac:(discriminate)).
Defined.

(** ** Further properties of the store *)

Section Composition.
Context {U : Utils}.

(** *** Reads after writes *)

Lemma resolve_normalized (name : string) (m : Machine) :
  normalizeModelName (normalizeModelName name) = normalizeModelName name ->
  resolve m (normalizeModelName name) = resolve m name.
Proof. intros Hn. unfold resolve. by rewrite Hn. Qed.






(** X3. Writing back what [get] returns is a no-op: when [get(name)]
    returns a value other than [NaN], [set(name, value)] with that value
    returns [false] and leaves the state as it is. *)
Theorem set_current_value_is_noop (name : string) (value : Value) (m : Machine) :
  normalizeModelName (normalizeModelName name) = normalizeModelName name ->
  get name m = (Normal value, m) ->
  value ≠ VNaN ->
  set name value m = (Normal false, m).
Proof.
  intros Hn Hget Hnan. rewrite get_resolve in Hget.
  rewrite set_resolve, (resolve_normalized name m Hn).
  assert (resolve m name = value) as -> by congruence.
  by rewrite strict_eq_refl.
Qed.


(** *** The request cycle *)

(** X5. No edit sent with a failed request is lost.  Between
    [flushDirtyPropsToPending] and [pushPendingPropsBackToDirty], whatever
    the client does short of another flush, a reinitialization of all props
    or a push back, the push back leaves pending empty and in dirty every
    key edited since the flush with its newer value, every other key with
    the value dirty held at the flush. *)
Theorem edits_return_after_failure (calls : list Call) (m : Machine) :
  forallb quiet calls = true ->
  let m2 := run calls (step m CFlushDirtyPropsToPending) in
  let m3 := step m2 CPushPendingPropsBackToDirty in
  pendingProps m3 = ∅ ∧
  (forall k : string,
     dirtyProps m3 !! k =
       match dirtyProps m2 !! k with
       | Some v => Some v
       | None => dirtyProps m !! k
       end) ∧
  dom (dirtyProps m) ⊆ dom (dirtyProps m3).
Proof.
  intros Hq m2 m3.
  assert (pendingProps m2 = dirtyProps m) as Hp
    by (subst m2; by rewrite run_quiet_pending).
  assert (dirtyProps m3 = dirtyProps m2 ∪ dirtyProps m) as Hd
    by (subst m3; simpl; by rewrite Hp).
  split; [done |]. split.
  - intros k. rewrite Hd, lookup_union.
    by destruct (dirtyProps m2 !! k), (dirtyProps m !! k).
  - rewrite Hd, dom_union_L. set_solver.
Qed.

(** X6. [pushPendingPropsBackToDirty] does not change what [get] returns
    for a name that neither dirty nor pending inherits a member under,
    unless dirty holds an explicit [undefined] under it. *)
Theorem get_after_pushPendingPropsBackToDirty (name : string) (m : Machine) :
  dirtyProps m !! normalizeModelName name ≠ Some VUndefined ->
  inheritedDirty m (normalizeModelName name) = VUndefined ->
  inheritedPending m (normalizeModelName name) = VUndefined ->
  fst (get name (snd (pushPendingPropsBackToDirty m))) = fst (get name m).
Proof.
  intros Hd Hid Hip. rewrite !get_resolve. simpl. f_equal.
  set (m' := set_pendingProps ∅ _).
  assert (dirtyMember m' (normalizeModelName name) =
            member (dirtyProps m ∪ pendingProps m) (normalizeModelName name)) as Hd'.
  { apply (dirtyMember_own m'). rewrite <- Hip. reflexivity. }
  assert (pendingMember m' (normalizeModelName name) = VUndefined) as Hp'.
  { unfold pendingMember. subst m'. simpl. rewrite lookup_empty. rewrite <- Hip. reflexivity. }
  unfold resolve. rewrite Hd', Hp'. simpl.
  rewrite (dirtyMember_own m _ Hid), (pendingMember_own m _ Hip).
  unfold member. rewrite lookup_union.
  destruct (dirtyProps m !! normalizeModelName name) as [v |] eqn:E; simpl.
  - assert (defined v = true) as Hv by (apply defined_true; congruence).
    destruct (pendingProps m !! normalizeModelName name); simpl; by rewrite Hv.
  - destruct (pendingProps m !! normalizeModelName name) as [w |]; simpl; [| done].
    by destruct (defined w).
Qed.

(** X7. [flushDirtyPropsToPending] does not change what [get] returns for
    a name that neither dirty nor pending inherits a member under and for
    which nothing is pending: whatever pending held before the flush is
    dropped, and only those names can read differently. *)
Theorem get_after_flushDirtyPropsToPending (name : string) (m : Machine) :
  pendingMember m (normalizeModelName name) = VUndefined ->
  inheritedDirty m (normalizeModelName name) = VUndefined ->
  inheritedPending m (normalizeModelName name) = VUndefined ->
  fst (get name (snd (flushDirtyPropsToPending m))) = fst (get name m).
Proof.
  intros Hp Hid Hip. rewrite !get_resolve. simpl. f_equal.
  set (m' := set_dirtyProto _ _).
  assert (dirtyMember m' (normalizeModelName name) = VUndefined) as Hd'.
  { unfold dirtyMember. subst m'. simpl. rewrite lookup_empty. rewrite <- Hip. reflexivity. }
  assert (pendingMember m' (normalizeModelName name) =
            member (dirtyProps m) (normalizeModelName name)) as Hp'.
  { apply (pendingMember_own m'). rewrite <- Hip. reflexivity. }
  unfold resolve. rewrite Hd', Hp', Hp. simpl.
  rewrite (dirtyMember_own m _ Hid).
  by destruct (defined (member (dirtyProps m) (normalizeModelName name))).
Qed.

(** X8. After [reinitializeAllProps(newProps)] a name that reads off dirty
    as something other than [undefined] still reads as that; every other
    name reads what the empty pending object inherits under it, if
    anything, and otherwise from the new props alone, whatever was
    pending. *)
Theorem get_after_reinitializeAllProps (name : string) (newProps : Value) (m : Machine) :
  let n := normalizeModelName name in
  let m' := snd (reinitializeAllProps newProps m) in
  get name m' =
    (Normal (if defined (dirtyMember m n) then dirtyMember m n
             else if defined (inheritedPending m n) then inheritedPending m n
             else originalTier (heap m) n (getDeepData (heap m) newProps n)),
     m').
Proof. intros n m'. by rewrite get_resolve. Qed.

(** *** The keys of dirty and pending *)

Lemma step_keys (m : Machine) (c : Call) (acc : gset string) :
  dom (dirtyProps m) ∪ dom (pendingProps m) ⊆ acc ->
  dom (dirtyProps (step m c)) ∪ dom (pendingProps (step m c)) ⊆
    match c with
    | CSet name _ => {[normalizeModelName name]} ∪ acc
    | _ => acc
    end.
Proof.
  intros Hacc. destruct c; simpl; try done.
  - by rewrite get_resolve.
  - by rewrite has_resolve.
  - rewrite set_resolve. destruct (strict_eq _ value); simpl; [set_solver |].
    destruct (assigned_frame (normalizeModelName name) value m)
      as (_ & _ & -> & [-> | ->]); [set_solver |].
    rewrite dom_insert_L. set_solver.
  - set_solver.
  - set_solver.
  - rewrite dom_union_L. set_solver.
  - unfold reinitializeProvidedProps.
    by destruct (reinitializeEntries_frame entries false m) as (r & h' & ->).
Qed.

(** X9. In every state reached from construction, each key of dirty and
    of pending is the normalized form of a name some [set] call was given:
    names enter the two maps through [set] only, and normalized. *)
Theorem keys_are_normalized_set_names (h : Heap) (p : Value) (calls : list Call) :
  let m := run calls (constructor h p) in
  dom (dirtyProps m) ∪ dom (pendingProps m) ⊆ writtenNames calls.
Proof.
  unfold writtenNames, run.
  assert (dom (dirtyProps (constructor h p)) ∪ dom (pendingProps (constructor h p))
            ⊆ (∅ : gset string)) as Hinit by (simpl; set_solver).
  revert Hinit. generalize (constructor h p) (∅ : gset string).
  induction calls as [| c calls IH]; intros m acc Hacc; [done |].
  simpl. apply IH. pose proof (step_keys m c acc Hacc) as Hs.
  by destruct c.
Qed.

(** *** The copies handed out *)

Lemma fresh_address (h : Heap) : h !! fresh ({[objectPrototype]} ∪ dom h) = None.
Proof.
  apply not_elem_of_dom. intros Hin.
  apply (is_fresh ({[objectPrototype]} ∪ dom h)). set_solver.
Qed.

(** X10. [getDirtyProps] returns a new object: its address was not in use,
    its properties are those of dirty, no object that existed is touched and
    the store's own fields stay as they are.  A later [set] changes dirty
    but not the object handed out. *)
Theorem getDirtyProps_is_a_snapshot (m : Machine) :
  let r := getDirtyProps m in
  exists a : positive,
    fst r = Normal (VObj a) ∧
    heap m !! a = None ∧
    deref (heap (snd r)) a = dirtyProps m ∧
    (forall b : positive, b ≠ a -> heap (snd r) !! b = heap m !! b) ∧
    snd r = set_heap (heap (snd r)) m ∧
    (forall (name : string) (value : Value),
       deref (heap (snd (set name value (snd r)))) a = dirtyProps m).
Proof.
  exists (fresh ({[objectPrototype]} ∪ dom (heap m))). cbn.
  split; [done |]. split; [apply fresh_address |].
  split; [apply deref_insert_eq |].
  split; [intros b Hb; by rewrite lookup_insert_ne |].
  split; [done |].
  intros name value. rewrite set_resolve.
  destruct (strict_eq _ value); simpl; [apply deref_insert_eq |].
  destruct (assigned_frame (normalizeModelName name) value
              (set_heap (<[fresh ({[objectPrototype]} ∪ dom (heap m)) :=
                           plain (dirtyProps m)]> (heap m)) m))
    as (-> & _).
  apply deref_insert_eq.
Qed.

(** X11. [getOriginalProps] never throws, whatever the original props
    are.  It returns a new object at an address that was not in use and
    touches nothing else; over props that are an object the copy holds the
    same values under the same keys (nested objects are shared, not
    copied), over [null] or [undefined] it is empty. *)
Theorem getOriginalProps_is_a_shallow_copy (m : Machine) :
  let r := getOriginalProps m in
  exists a' : positive,
    fst r = Normal (VObj a') ∧
    heap m !! a' = None ∧
    (forall b : positive, b ≠ a' -> heap (snd r) !! b = heap m !! b) ∧
    snd r = set_heap (heap (snd r)) m ∧
    (forall a : positive,
       props m = VObj a -> deref (heap (snd r)) a' = deref (heap m) a) ∧
    (props m = VNull ∨ props m = VUndefined -> deref (heap (snd r)) a' = ∅).
Proof.
  exists (fresh ({[objectPrototype]} ∪ dom (heap m))). cbn.
  split; [done |]. split; [apply fresh_address |].
  split; [intros b Hb; by rewrite lookup_insert_ne |].
  split; [done |]. rewrite deref_insert_eq. split.
  - by intros a ->.
  - by intros [-> | ->].
Qed.

(** *** [findIdentifier] and the loop of [reinitializeProvidedProps] *)

(** X12. [findIdentifier] throws on [null] and on nothing else.  On any
    other value it leaves the state alone and returns the identifier of an
    object that carries the marker, and the value itself, an object by
    reference, when it carries none. *)
Theorem findIdentifier_throws_on_null_only (value : Value) (m : Machine) :
  (fst (findIdentifier value m) = Throw TypeError <-> value = VNull) ∧
  snd (findIdentifier value m) = m ∧
  (forall id : Value,
     identifierOf (heap m) value = Some id -> fst (findIdentifier value m) = Normal id) ∧
  (value ≠ VNull -> identifierOf (heap m) value = None ->
     fst (findIdentifier value m) = Normal value).
Proof.
  split; [| split; [apply findIdentifier_state | split]].
  - split.
    + intros Ht. destruct (decide (value = VNull)) as [| Hv]; [done |].
      by rewrite (findIdentifier_not_null _ _ Hv) in Ht.
    + by intros ->.
  - intros id Hid. rewrite findIdentifier_not_null; [by rewrite Hid |].
    by intros ->.
  - intros Hv Hid. rewrite findIdentifier_not_null by done. by rewrite Hid.
Qed.

(** X13. Whatever the patch, and also when it throws half way,
    [reinitializeProvidedProps] changes nothing but the heap: dirty, pending
    and the reference to the original props stay.  In the heap it touches
    only the object the original props point to, where every key reads
    either as before or as a value the patch holds for that key, the very
    value, not a copy (keys are read as enumerable own properties; under
    the key [__proto__] the patch can replace the prototype of that object
    instead).  Over original props that are not an object it changes
    nothing at all. *)
Theorem reinitializeProvidedProps_writes_patched_keys_only
    (entries : list (string * Value)) (m : Machine) :
  exists (r : Completion bool) (h' : Heap),
    reinitializeProvidedProps entries m = (r, set_heap h' m) ∧
    (forall a b : positive, props m = VObj a -> b ≠ a -> h' !! b = heap m !! b) ∧
    (forall (a : positive) (key : string),
       props m = VObj a ->
       member (deref h' a) key = member (deref (heap m) a) key ∨
       exists value : Value, (key, value) ∈ entries ∧ member (deref h' a) key = value) ∧
    ((forall a : positive, props m ≠ VObj a) -> h' = heap m).
Proof. apply reinitializeEntries_heap. Qed.

(** X14. The copy [getOriginalProps] hands out is cut loose from the
    store: a [reinitializeProvidedProps] that follows overwrites keys of the
    original object and leaves the copy with the properties the original
    had when the copy was made. *)
Theorem getOriginalProps_copy_survives_reinitialize
    (a : positive) (entries : list (string * Value)) (m : Machine) :
  props m = VObj a ->
  is_Some (heap m !! a) ->
  let r := getOriginalProps m in
  exists a' : positive,
    fst r = Normal (VObj a') ∧
    a' ≠ a ∧
    deref (heap (snd (reinitializeProvidedProps entries (snd r)))) a' = deref (heap m) a.
Proof.
  intros Hp [o Ho]. set (a' := fresh ({[objectPrototype]} ∪ dom (heap m))).
  exists a'. cbn. fold a'.
  assert (a' ≠ a) as Hne.
  { intros Heq. pose proof (fresh_address (heap m)) as Hf. fold a' in Hf.
    rewrite Heq in Hf. congruence. }
  split; [done |]. split; [done |].
  set (m1 := set_heap (<[a' := plain (spread (heap m) (props m))]> (heap m)) m).
  destruct (reinitializeEntries_heap entries false m1) as (r & h' & Hr & Hother & _).
  unfold reinitializeProvidedProps. rewrite Hr. simpl.
  unfold deref at 1. unfold object_at. rewrite (Hother a _ Hp Hne). simpl.
  rewrite lookup_insert_eq. simpl. by rewrite Hp.
Qed.

Lemma reinitializeEntries_false (entries : list (string * Value)) :
  forall (changed : bool) (m m' : Machine),
    reinitializeEntries entries changed m = (Normal false, m') ->
    m' = m ∧ changed = false.
Proof.
  induction entries as [| [key value] rest IH]; intros changed m m'.
  { intros [= -> ->]. done. }
  rewrite reinitializeEntries_unfold. case_decide; [done |].
  destruct (strict_eq _ _); [apply IH |].
  destruct (setMember (props m) key value m) as [[[] | e] m1]; [| done].
  intros Hr. by destruct (IH _ _ _ Hr).
Qed.

(** X15. When [reinitializeProvidedProps] returns [false] it has written
    nothing: the state is the one it started from. *)
Theorem reinitializeProvidedProps_false_changes_nothing
    (entries : list (string * Value)) (m m' : Machine) :
  reinitializeProvidedProps entries m = (Normal false, m') -> m' = m.
Proof. intros Hr. by destruct (reinitializeEntries_false _ _ _ _ Hr). Qed.








(** An assignment on something that is not an object leaves the state
    alone; it throws, except under [__proto__] on a primitive. *)
Lemma setMember_nonobject (v : Value) (k : string) (x : Value) (m : Machine) :
  (forall a : positive, v ≠ VObj a) ->
  setMember v k x m = (Throw TypeError, m) ∨
  (k = "__proto__" ∧ v ≠ VNull ∧ v ≠ VUndefined ∧ setMember v k x m = (Normal tt, m)).
Proof.
  intros Hv. destruct v; try (by left); try (by destruct (Hv a)).
  all: unfold setMember; destruct (String.eqb_spec k "__proto__"); [right | by left].
  all: by repeat split.
Qed.

Lemma reinitializeEntries_nonobject (entries : list (string * Value)) :
  forall (changed : bool) (m : Machine),
    (forall a : positive, props m ≠ VObj a) ->
    exists r : Completion bool,
      reinitializeEntries entries changed m = (r, m) ∧
      (props m = VNull ∨ props m = VUndefined ∨ "__proto__" ∉ entries.*1 ->
         r = Normal changed ∨ r = Throw TypeError).
Proof.
  induction entries as [| [key value] rest IH]; intros changed m Hp.
  { exists (Normal changed). split; [done |]. by left. }
  rewrite reinitializeEntries_unfold, fmap_cons. simpl.
  case_decide; [exists (Throw TypeError); split; [done |]; by right |].
  destruct (strict_eq _ _).
  - destruct (IH changed m Hp) as (r & -> & Hr). exists r. split; [done |].
    intros Hc. apply Hr. destruct Hc as [? | [? | Hk]]; auto.
    right; right. by apply not_elem_of_cons in Hk as [_ ?].
  - destruct (setMember_nonobject (props m) key value m Hp)
      as [-> | (-> & Hn & Hu & ->)].
    + exists (Throw TypeError). split; [done |]. by right.
    + destruct (IH true m Hp) as (r & -> & _). exists r. split; [done |].
      intros [? | [? | Hk]]; [done | done |].
      by apply not_elem_of_cons in Hk as [? _].
Qed.

(** X18. Over original props that are not an object (a store built over
    [null], [undefined] or a primitive), [reinitializeProvidedProps] leaves
    the state as it found it, and it returns [false] or throws; only over a
    primitive, with a patch that has a key [__proto__], can it return
    [true]. *)
Theorem reinitializeProvidedProps_over_non_object
    (entries : list (string * Value)) (m : Machine) :
  (forall a : positive, props m ≠ VObj a) ->
  snd (reinitializeProvidedProps entries m) = m ∧
  (props m = VNull ∨ props m = VUndefined ∨ "__proto__" ∉ entries.*1 ->
     reinitializeProvidedProps entries m = (Normal false, m) ∨
     reinitializeProvidedProps entries m = (Throw TypeError, m)).
Proof.
  intros Hp. unfold reinitializeProvidedProps.
  destruct (reinitializeEntries_nonobject entries false m Hp) as (r & -> & Hr).
  split; [done |]. intros Hc. destruct (Hr Hc) as [-> | ->]; auto.
Qed.


(** *** Nested names and shadowed props *)

Lemma index_dot_cons (c : ascii) (rest : string) :
  String.index 0 "." (String c rest) =
    if Ascii.ascii_dec "." c then Some 0%nat
    else match String.index 0 "." rest with
         | Some i => Some (S i)
         | None => None
         end.
Proof. cbn -[Ascii.ascii_dec]. by destruct (Ascii.ascii_dec "." c), rest. Qed.

Lemma isPropNameTopLevel_chars (key : string) :
  isPropNameTopLevel key = true <-> "."%char ∉ String.list_ascii_of_string key.
Proof.
  unfold isPropNameTopLevel. induction key as [| c rest IH].
  - split; [intros _; apply not_elem_of_nil | done].
  - rewrite index_dot_cons. cbn [String.list_ascii_of_string].
    rewrite not_elem_of_cons.
    destruct (Ascii.ascii_dec "." c) as [<- | Hc].
    + split; [done | by intros [Hn _]].
    + destruct (String.index 0 "." rest).
      * split; [done |]. intros [_ Hn]. by apply IH in Hn.
      * split; [| done]. intros _. split; [done | by apply IH].
Qed.

(** X20. The identifier is extracted for top-level names only: for a name
    whose normalized form contains a dot and reads as [undefined] off dirty
    and off pending, [get] returns what the deep lookup found as it is, an
    object that carries ["@id"] included. *)
Theorem get_nested_name_returns_value_whole (name : string) (m : Machine) :
  let n := normalizeModelName name in
  "."%char ∈ String.list_ascii_of_string n ->
  dirtyMember m n = VUndefined ->
  pendingMember m n = VUndefined ->
  get name m = (Normal (getDeepData (heap m) (props m) n), m).
Proof.
  intros n Hdot Hd Hp. rewrite get_resolve, resolve_original by done.
  fold n. unfold originalTier.
  destruct (isPropNameTopLevel n) eqn:Htop; [| done].
  by apply isPropNameTopLevel_chars in Htop.
Qed.

(** What [Object.prototype] hands down depends on that one object. *)
Lemma inherited_from_objectPrototype (h h' : Heap) (k : string) (rp : Value) :
  h' !! objectPrototype = h !! objectPrototype ->
  inherited (chainFuel h') h' (VObj objectPrototype) k rp =
  inherited (chainFuel h) h (VObj objectPrototype) k rp.
Proof.
  intros Hop. unfold chainFuel. cbn [inherited].
  unfold object_at. rewrite Hop. rewrite !bool_decide_eq_true_2 by done.
  done.
Qed.

(** X21. [reinitializeProvidedProps] does not change what [get] returns
    for a name that has an entry other than [undefined] in dirty, whatever
    the patch writes to the original props; nor for a name that has one in
    pending, as long as dirty has the prototype it was created with and the
    original props are not [Object.prototype] itself. *)
Theorem get_shadowed_after_reinitializeProvidedProps
    (name : string) (entries : list (string * Value)) (m : Machine) :
  member (dirtyProps m) (normalizeModelName name) ≠ VUndefined ∨
  (member (pendingProps m) (normalizeModelName name) ≠ VUndefined ∧
   dirtyProto m = VObj objectPrototype ∧
   props m ≠ VObj objectPrototype) ->
  fst (get name (snd (reinitializeProvidedProps entries m))) = fst (get name m).
Proof.
  intros Hshadow. unfold reinitializeProvidedProps.
  destruct (reinitializeEntries_heap entries false m) as (r & h' & -> & Hother & _ & Hnon).
  rewrite !get_resolve. simpl. f_equal.
  destruct Hshadow as [Hd | (Hp & Hproto & Hprops)].
  - rewrite !resolve_dirty; rewrite ?dirtyMember_entry; done.
  - assert (h' !! objectPrototype = heap m !! objectPrototype) as Hop.
    { destruct (props m) as [| | | | | | a] eqn:E;
        try (rewrite Hnon; [done | by intros ?]).
      apply (Hother a); [done | congruence]. }
    assert (dirtyMember (set_heap h' m) (normalizeModelName name) =
              dirtyMember m (normalizeModelName name)) as Hdm.
    { unfold dirtyMember, inheritedDirty.
      change (dirtyProps (set_heap h' m)) with (dirtyProps m).
      change (heap (set_heap h' m)) with h'.
      change (dirtyProto (set_heap h' m)) with (dirtyProto m).
      rewrite Hproto.
      by rewrite (inherited_from_objectPrototype (heap m) h'). }
    assert (pendingMember (set_heap h' m) (normalizeModelName name) =
              member (pendingProps m) (normalizeModelName name)) as Hpm.
    { unfold pendingMember, member; simpl.
      unfold member in Hp. by destruct (pendingProps m !! normalizeModelName name). }
    assert (pendingMember m (normalizeModelName name) =
              member (pendingProps m) (normalizeModelName name)) as Hpm0.
    { unfold pendingMember, member.
      unfold member in Hp. by destruct (pendingProps m !! normalizeModelName name). }
    unfold resolve. simpl. rewrite Hdm, Hpm, Hpm0.
    destruct (defined (dirtyMember m (normalizeModelName name))); [done |].
    by rewrite (defined_true _ Hp).
Qed.

End Composition.

(** ** The further properties at work on the example states *)


(** The name X1 leaves out: [set('__proto__', 5)] returns [true] and
    [get('__proto__')] is [Object.prototype] as before. *)
Lemma get_after_set_proto_name :
  let m' := snd (set (U := specUtils) "__proto__" (VNum 5) emptyStore) in
  fst (set (U := specUtils) "__proto__" (VNum 5) emptyStore) = Normal true ∧
  get (U := specUtils) "__proto__" m' = (Normal (VObj objectPrototype), m').
Proof. split; reflexivity. Qed.


Lemma set_current_value_is_noop_witness :
  get (U := specUtils) "page" tieredStore = (Normal (VNum 7), tieredStore) ∧
  set (U := specUtils) "page" (VNum 7) tieredStore = (Normal false, tieredStore).
Proof.
  split; [reflexivity |].
  exact (set_current_value_is_noop (U := specUtils) "page" (VNum 7) tieredStore
           eq_refl eq_refl ltac:(discriminate)).
Defined.


Lemma edits_return_after_failure_witness :
  let m2 :=
    run (U := specUtils) editsDuringRequest
      (step (U := specUtils) roundTripStart CFlushDirtyPropsToPending) in
  let m3 := step (U := specUtils) m2 CPushPendingPropsBackToDirty in
  forallb quiet editsDuringRequest = true ∧
  pendingProps m3 = ∅ ∧
  dirtyProps m3 = {[ "a" := VNum 5; "b" := VNum 2; "c" := VNum 9 ]} ∧
  dom (dirtyProps roundTripStart) ⊆ dom (dirtyProps m3).
Proof.
  destruct (edits_return_after_failure (U := specUtils) editsDuringRequest roundTripStart
              eq_refl) as (Hp & _ & Hdom).
  split; [reflexivity |]. split; [exact Hp |]. split; [reflexivity | exact Hdom].
Defined.

Lemma get_after_pushPendingPropsBackToDirty_witness :
  dirtyProps inFlightStore !! "a" ≠ Some VUndefined ∧
  inheritedDirty inFlightStore "a" = VUndefined ∧
  inheritedPending inFlightStore "a" = VUndefined ∧
  fst (get (U := specUtils) "a" (snd (pushPendingPropsBackToDirty inFlightStore))) =
    Normal (VNum 2).
Proof.
  split; [differs |]. split; [reflexivity |]. split; [reflexivity |].
  exact (get_after_pushPendingPropsBackToDirty (U := specUtils) "a" inFlightStore
           ltac:(differs) eq_refl eq_refl).
Defined.

(** The [undefined] of X6: with [undefined] in dirty over a pending 7,
    [get] reads 7 before the push back and [undefined] after it. *)
Lemma pushPendingPropsBackToDirty_over_undefined :
  fst (get (U := specUtils) "page" maskedStore) = Normal (VNum 7) ∧
  fst (get (U := specUtils) "page" (snd (pushPendingPropsBackToDirty maskedStore))) =
    Normal VUndefined.
Proof. split; reflexivity. Qed.

Lemma get_after_flushDirtyPropsToPending_witness :
  pendingMember roundTripStart "a" = VUndefined ∧
  inheritedDirty roundTripStart "a" = VUndefined ∧
  inheritedPending roundTripStart "a" = VUndefined ∧
  fst (get (U := specUtils) "a" (snd (flushDirtyPropsToPending roundTripStart))) =
    Normal (VNum 1).
Proof.
  split; [reflexivity |]. split; [reflexivity |]. split; [reflexivity |].
  exact (get_after_flushDirtyPropsToPending (U := specUtils) "a" roundTripStart
           eq_refl eq_refl eq_refl).
Defined.

Lemma getOriginalProps_copy_survives_reinitialize_witness :
  let r := getOriginalProps patchStore in
  props patchStore = VObj 1 ∧
  is_Some (heap patchStore !! 1%positive) ∧
  exists a' : positive,
    fst r = Normal (VObj a') ∧
    a' ≠ 1%positive ∧
    deref (heap (snd (reinitializeProvidedProps (U := specUtils) [("user", VObj 4)] (snd r)))) a' =
      {[ "user" := VObj 2; "note" := VNull ]}.
Proof.
  split; [reflexivity |]. split; [by eexists |].
  exact (getOriginalProps_copy_survives_reinitialize (U := specUtils) 1
           [("user", VObj 4)] patchStore eq_refl ltac:(by eexists)).
Defined.

Lemma reinitializeProvidedProps_false_changes_nothing_witness :
  reinitializeProvidedProps (U := specUtils) [("user", VObj 3)] patchStore =
    (Normal false, patchStore) ∧
  patchStore = patchStore.
Proof.
  split; [reflexivity |].
  exact (reinitializeProvidedProps_false_changes_nothing (U := specUtils)
           [("user", VObj 3)] patchStore patchStore eq_refl).
Defined.


(** The key X16 sets apart: a patch whose own key [__proto__] holds an
    object that inherits from the original props makes the assignment
    refuse the cycle and throw, with no [null] in the patch. *)
Lemma reinitializeProvidedProps_cyclic_proto :
  proto (object_at (heap heirStore) 2) = props heirStore ∧
  (VNull ∉ [("__proto__", VObj 2)].*2) ∧
  reinitializeProvidedProps (U := specUtils) [("__proto__", VObj 2)] heirStore =
    (Throw TypeError, heirStore).
Proof.
  split; [reflexivity |]. split; [| reflexivity].
  intros Hin. apply list_elem_of_singleton in Hin. discriminate Hin.
Qed.


Lemma reinitializeProvidedProps_over_non_object_witness :
  (forall a : positive, props nullStore ≠ VObj a) ∧
  snd (reinitializeProvidedProps (U := specUtils) [("a", VNum 1)] nullStore) = nullStore ∧
  (reinitializeProvidedProps (U := specUtils) [("a", VNum 1)] nullStore =
     (Normal false, nullStore) ∨
   reinitializeProvidedProps (U := specUtils) [("a", VNum 1)] nullStore =
     (Throw TypeError, nullStore)).
Proof.
  destruct (reinitializeProvidedProps_over_non_object (U := specUtils) [("a", VNum 1)]
              nullStore ltac:(intros a; discriminate)) as (Hstate & Hresult).
  split; [intros a; discriminate |]. split; [exact Hstate |].
  exact (Hresult (or_introl eq_refl)).
Defined.

(** The case X18 sets apart: over the number 5 as original props, the
    patch with the key [__proto__] meets a setter that returns without
    effect, and the call returns [true]. *)
Lemma reinitializeProvidedProps_proto_over_number :
  props numberStore = VNum 5 ∧
  reinitializeProvidedProps (U := specUtils) [("__proto__", VNum 7)] numberStore =
    (Normal true, numberStore).
Proof. split; reflexivity. Qed.


(** The key X19 leaves out: a patch whose own key [__proto__] holds 5
    returns [true] and the original props still read [Object.prototype]
    under [__proto__]. *)
Lemma reinitializeProvidedProps_proto_key :
  let r := reinitializeProvidedProps (U := specUtils) [("__proto__", VNum 5)] userStore in
  r = (Normal true, userStore) ∧
  propertyOf (heap (snd r)) 1 "__proto__" = VObj objectPrototype.
Proof. split; reflexivity. Qed.

Lemma get_nested_name_returns_value_whole_witness :
  "."%char ∈ String.list_ascii_of_string (normalizeModelName_spec "user[profile]") ∧
  dirtyMember nestedStore "user.profile" = VUndefined ∧
  pendingMember nestedStore "user.profile" = VUndefined ∧
  get (U := specUtils) "user[profile]" nestedStore = (Normal (VObj 3), nestedStore) ∧
  identifierOf (heap nestedStore) (VObj 3) = Some (VNum 9).
Proof.
  assert ("."%char ∈ String.list_ascii_of_string (normalizeModelName_spec "user[profile]"))
    as Hdot by (do 4 apply list_elem_of_further; apply list_elem_of_here).
  split; [exact Hdot |]. split; [reflexivity |]. split; [reflexivity |].
  split; [| reflexivity].
  exact (get_nested_name_returns_value_whole (U := specUtils) "user[profile]" nestedStore
           Hdot eq_refl eq_refl).
Defined.

(** The case X20 sets apart: once [set('__proto__', o)] has made
    [o = {'a.b': 1}] the prototype of dirty, the dotted name [a.b] has no
    entry in dirty or pending and still reads off dirty as 1. *)
Lemma get_nested_name_inherited :
  dirtyProps adoptedStore = ∅ ∧
  pendingProps adoptedStore = ∅ ∧
  dirtyProto adoptedStore = VObj 2 ∧
  getDeepData_spec (heap adoptedStore) (props adoptedStore) "a.b" = VUndefined ∧
  get (U := specUtils) "a.b" adoptedStore = (Normal (VNum 1), adoptedStore).
Proof. repeat split. Qed.

Lemma get_shadowed_after_reinitializeProvidedProps_witness :
  member (dirtyProps editedUserStore) "user" ≠ VUndefined ∧
  fst (reinitializeProvidedProps (U := specUtils) [("user", VNum 456)] editedUserStore) =
    Normal true ∧
  fst (get (U := specUtils) "user"
         (snd (reinitializeProvidedProps (U := specUtils) [("user", VNum 456)]
                 editedUserStore))) =
    Normal (VObj 2).
Proof.
  split; [differs |]. split; [reflexivity |].
  exact (get_shadowed_after_reinitializeProvidedProps (U := specUtils) "user"
           [("user", VNum 456)] editedUserStore ltac:(left; differs)).
Defined.

(** The case X21 sets apart: with the original props as prototype of
    dirty, a patch of [k] shows through dirty and hides the pending 1. *)
Lemma get_pending_name_after_reinitializeProvidedProps :
  member (pendingProps mirroredStore) "k" = VNum 1 ∧
  dirtyProto mirroredStore = props mirroredStore ∧
  fst (get (U := specUtils) "k" mirroredStore) = Normal (VNum 1) ∧
  fst (get (U := specUtils) "k"
         (snd (reinitializeProvidedProps (U := specUtils) [("k", VNum 2)] mirroredStore))) =
    Normal (VNum 2).
Proof. repeat split. Qed.
